(** * zenml.core.steps.trainer.base_trainer: BaseTrainerStep

    A shallow embedding of [BaseTrainerStep] (the base interface of all
    trainer steps) and the properties of its constructor and its hooks.

    Python objects are attribute dictionaries living in a heap; a method is a
    computation in a state-and-exception monad over that heap.  What the file
    imports from elsewhere ([BaseStep.__init__], [tft.TFTransformOutput],
    [StepTypes]) is kept abstract in an environment record. *)

From Stdlib Require Import ZArith Ascii String.
From stdpp Require Import base option gmap strings list.

Open Scope string_scope.

(** ** os.path on POSIX (posixpath) *)

Module posixpath.

Definition sep : ascii := "/"%char.

(** [p.rfind(sep)]: index of the last occurrence, [-1] when there is none. *)
Fixpoint rfind_from (c : ascii) (p : string) (i last : Z) : Z :=
  match p with
  | EmptyString => last
  | String a p' => rfind_from c p' (i + 1) (if Ascii.eqb a c then i else last)
  end.

Definition rfind (c : ascii) (p : string) : Z := rfind_from c p 0 (-1).

(** [p[:i]] for [0 <= i]. *)
Definition slice_to (p : string) (i : Z) : string :=
  substring 0 (Z.to_nat i) p.

(** [c * n] *)
Fixpoint str_mul (c : ascii) (n : nat) : string :=
  match n with
  | O => EmptyString
  | S n' => String c (str_mul c n')
  end.

(** [p.rstrip(c)] *)
Fixpoint rstrip (c : ascii) (p : string) : string :=
  match p with
  | EmptyString => EmptyString
  | String a p' =>
      match rstrip c p' with
      | EmptyString => if Ascii.eqb a c then EmptyString else String a EmptyString
      | r => String a r
      end
  end.

Definition startswith (c : ascii) (p : string) : bool :=
  match p with
  | String a _ => Ascii.eqb a c
  | EmptyString => false
  end.

Fixpoint endswith (c : ascii) (p : string) : bool :=
  match p with
  | EmptyString => false
  | String a EmptyString => Ascii.eqb a c
  | String _ p' => endswith c p'
  end.

(** [c in p] *)
Fixpoint contains (c : ascii) (p : string) : bool :=
  match p with
  | EmptyString => false
  | String a p' => Ascii.eqb a c || contains c p'
  end.

(** [i = p.rfind(sep) + 1; head = p[:i];
     if head and head != sep*len(head): head = head.rstrip(sep)] *)
Definition dirname (p : string) : string :=
  let i := (rfind sep p + 1)%Z in
  let head := slice_to p i in
  if negb (String.eqb head EmptyString)
     && negb (String.eqb head (str_mul sep (String.length head)))
  then rstrip sep head
  else head.

(** One turn of the loop of [join]: component [b] appended to [path]. *)
Definition join_step (path b : string) : string :=
  if startswith sep b then b
  else if String.eqb path EmptyString || endswith sep path then path ++ b
  else path ++ String sep b.

(** [os.path.join(a, *p)] *)
Definition join (a : string) (p : list string) : string :=
  fold_left join_step p a.

End posixpath.

(** ** Paths as a root and a list of components

    The reading of a path that the notion of a parent directory rests on,
    written without reference to the functions of [posixpath] above: a path
    is absolute or not, and names a sequence of components; repeated and
    trailing separators name nothing.  The parent directory has the same
    root and all components but the last, as [PurePath.parent] of pathlib
    has it. *)

Module pathspec.

(** The pieces of [p] between separators, empty ones included. *)
Fixpoint split (p : string) : list string :=
  match p with
  | EmptyString => [EmptyString]
  | String c p' =>
      if Ascii.eqb c "/" then EmptyString :: split p'
      else match split p' with
           | x :: xs => String c x :: xs
           | [] => [String c EmptyString]
           end
  end.








End pathspec.

(** ** Python values, objects and the heap *)

(** Object identity. *)
Abbreviation loc := positive.

Inductive exn : Type :=
| TypeError
| AttributeError (a : string)
| Exception (msg : string).

Inductive result (A : Type) : Type :=
| Ok (a : A)
| Raise (e : exn).

Arguments Ok {A} a.
Arguments Raise {A} e.

Definition is_ok {A : Type} (r : result A) : bool :=
  match r with
  | Ok _ => true
  | Raise _ => false
  end.

Section Model.

(** [feature]: a feature spec of tf.io (FixedLenFeature, VarLenFeature, ...);
    [pyobj]: any other object the caller passes in (datasets, models, lists of
    file patterns, transform-output handles). *)
Context {feature pyobj : Type}.

Inductive value : Type :=
| VNone
| VStr (s : string)
| VDict (d : gmap string feature)
| VObj (o : pyobj)
| VFunction (f : string)
| VMethod (f : string) (self : loc).

(** What a class body binds a name to. *)
Inductive class_attr : Type :=
| CData (v : value)
| CFunction (f : string)
| CStatic (f : string).

Record world : Type := World {
  cls : gmap string class_attr;
  heap : gmap loc (gmap string value)
}.

Definition set_heap (w : world) (h : gmap loc (gmap string value)) : world :=
  {| cls := cls w; heap := h |}.

(** State and exceptions. *)
Definition M (A : Type) : Type := world → result (A * world).

Definition ret {A : Type} (a : A) : M A := λ w, Ok (a, w).

Definition bind {A B : Type} (m : M A) (k : A → M B) : M B :=
  λ w, match m w with
       | Ok (a, w') => k a w'
       | Raise e => Raise e
       end.

Definition raise {A : Type} (e : exn) : M A := λ _, Raise e.

Definition lift {A : Type} (r : result A) : M A :=
  λ w, match r with
       | Ok a => Ok (a, w)
       | Raise e => Raise e
       end.

Notation "x <- m ;; k" := (bind m (λ x, k))
  (at level 100, m at next level, k at level 200, right associativity,
   only parsing).
Notation "m ;;; k" := (bind m (λ _, k))
  (at level 100, k at level 200, right associativity, only parsing).

Definition value_of {A : Type} (r : result (A * world)) : option A :=
  match r with
  | Ok (a, _) => Some a
  | Raise _ => None
  end.

Definition world_of {A : Type} (r : result (A * world)) : option world :=
  match r with
  | Ok (_, w) => Some w
  | Raise _ => None
  end.

(** [self.a = v] *)
Definition setattr (self : loc) (a : string) (v : value) : M unit :=
  λ w, Ok (tt, set_heap w (alter (insert a v) self (heap w))).

(** [self.a]: the instance dictionary first, then the class; a function of
    the class comes back bound to [self], a static method as it is.  The
    class is [BaseTrainerStep] as its own body defines it: what it would
    inherit from [BaseStep] is not part of the file, and a name found in
    neither dictionary raises [AttributeError] here. *)
Definition getattr (self : loc) (a : string) : M value :=
  λ w, match heap w !! self with
       | None => Raise (AttributeError a)
       | Some d =>
           match d !! a with
           | Some v => Ok (v, w)
           | None =>
               match cls w !! a with
               | Some (CData v) => Ok (v, w)
               | Some (CFunction f) => Ok (VMethod f self, w)
               | Some (CStatic f) => Ok (VFunction f, w)
               | None => Raise (AttributeError a)
               end
           end
       end.

(** The stored attribute itself, without the class. *)
Definition field (w : world) (self : loc) (a : string) : option value :=
  heap w !! self ≫= λ d, d !! a.

Definition is_not_None (v : value) : bool :=
  match v with
  | VNone => false
  | _ => true
  end.

Definition of_text (t : option string) : value :=
  match t with
  | Some s => VStr s
  | None => VNone
  end.

(** [d.copy()]: a new dictionary with the items of [d]. *)
Definition dict_copy (d : gmap string feature) : gmap string feature :=
  list_to_map (map_to_list d).

Definition os_path_dirname (p : value) : result value :=
  match p with
  | VStr s => Ok (VStr (posixpath.dirname s))
  | _ => Raise TypeError
  end.

Definition os_path_join (a : value) (b : string) : result value :=
  match a with
  | VStr s => Ok (VStr (posixpath.join s [b]))
  | _ => Raise TypeError
  end.

(** What the module imports. *)
Record env : Type := Env {
  (** [StepTypes.trainer.name] *)
  StepTypes_trainer_name : string;
  (** [BaseStep.__init__] applied to the keyword arguments: the attributes
      it leaves on the instance, or the exception it raises. *)
  BaseStep_init : gmap string value → result (gmap string value);
  (** [tft.TFTransformOutput(path).transformed_feature_spec()] *)
  TFTransformOutput_transformed_feature_spec :
    value → result (gmap string feature)
}.

Section Class.

Context (E : env).

(** The call of [BaseStep.__init__] through [super()], with the keyword
    arguments left over. *)
Definition super_init (self : loc) (kwargs : gmap string value) : M unit :=
  d <- lift (BaseStep_init E kwargs) ;;
  λ w, Ok (tt, set_heap w (alter (union d) self (heap w))).

(** The class body of [BaseTrainerStep]. *)
Definition BaseTrainerStep : gmap string class_attr :=
  <["STEP_TYPE" := CData (VStr (StepTypes_trainer_name E))]>
  (<["__init__" := CFunction "__init__"]>
  (<["get_run_fn" := CFunction "get_run_fn"]>
  (<["run_fn" := CFunction "run_fn"]>
  (<["input_fn" := CFunction "input_fn"]>
  (<["_get_serve_tf_examples_fn" := CStatic "_get_serve_tf_examples_fn"]>
  (<["_get_ce_eval_tf_examples_fn" := CStatic "_get_ce_eval_tf_examples_fn"]>
  (<["model_fn" := CStatic "model_fn"]> ∅))))))).

Definition __init__ (self : loc)
    (serving_model_dir transform_output : option string)
    (train_files eval_files : value)
    (kwargs : gmap string value) : M unit :=
  super_init self kwargs ;;;
  setattr self "serving_model_dir" (of_text serving_model_dir) ;;;
  setattr self "transform_output" (of_text transform_output) ;;;
  setattr self "train_files" train_files ;;;
  setattr self "eval_files" eval_files ;;;
  setattr self "schema" VNone ;;;
  setattr self "log_dir" VNone ;;;
  t <- getattr self "transform_output" ;;
  (if is_not_None t then
     t' <- getattr self "transform_output" ;;
     spec <- lift (TFTransformOutput_transformed_feature_spec E t') ;;
     setattr self "schema" (VDict (dict_copy spec))
   else ret tt) ;;;
  s <- getattr self "serving_model_dir" ;;
  if is_not_None s then
    s' <- getattr self "serving_model_dir" ;;
    d <- lift (os_path_dirname s') ;;
    p <- lift (os_path_join d "logs") ;;
    setattr self "log_dir" p
  else ret tt.

(** Calling the class: a new object, initialised by [__init__]. *)
Definition new
    (serving_model_dir transform_output : option string)
    (train_files eval_files : value)
    (kwargs : gmap string value) : M loc :=
  λ w, let self := fresh (dom (heap w)) in
       (__init__ self serving_model_dir transform_output
                 train_files eval_files kwargs ;;;
        ret self) (set_heap w (<[self := ∅]> (heap w))).

Definition get_run_fn (self : loc) : M value :=
  getattr self "run_fn".

Definition run_fn (self : loc) : M value :=
  ret VNone.

Definition input_fn (self : loc) (file_pattern tf_transform_output : value)
  : M value :=
  ret VNone.

Definition _get_serve_tf_examples_fn (model tf_transform_output : value)
  : M value :=
  ret VNone.

Definition _get_ce_eval_tf_examples_fn (model tf_transform_output : value)
  : M value :=
  ret VNone.

Definition model_fn (train_dataset eval_dataset : value) : M value :=
  ret VNone.

(** Calling a callable object on positional arguments. *)
Definition call_value (f : value) (args : list value) : M value :=
  match f, args with
  | VMethod "run_fn" self, [] => run_fn self
  | VMethod "get_run_fn" self, [] => get_run_fn self
  | VMethod "input_fn" self, [a; b] => input_fn self a b
  | VFunction "_get_serve_tf_examples_fn", [a; b] =>
      _get_serve_tf_examples_fn a b
  | VFunction "_get_ce_eval_tf_examples_fn", [a; b] =>
      _get_ce_eval_tf_examples_fn a b
  | VFunction "model_fn", [a; b] => model_fn a b
  | _, _ => raise TypeError
  end.

(** ** The operations of the class, as a transition system *)

Inductive call : Type :=
| Call_new (serving_model_dir transform_output : option string)
           (train_files eval_files : value) (kwargs : gmap string value)
| Call_get_run_fn (self : loc)
| Call_run_fn (self : loc)
| Call_input_fn (self : loc) (file_pattern tf_transform_output : value)
| Call_get_serve_tf_examples_fn (model tf_transform_output : value)
| Call_get_ce_eval_tf_examples_fn (model tf_transform_output : value)
| Call_model_fn (train_dataset eval_dataset : value).

Definition is_hook (c : call) : bool :=
  match c with
  | Call_new _ _ _ _ _ | Call_get_run_fn _ => false
  | _ => true
  end.

Definition exec (c : call) : M unit :=
  match c with
  | Call_new s t tf ef kw => new s t tf ef kw ;;; ret tt
  | Call_get_run_fn self => get_run_fn self ;;; ret tt
  | Call_run_fn self => run_fn self ;;; ret tt
  | Call_input_fn self a b => input_fn self a b ;;; ret tt
  | Call_get_serve_tf_examples_fn a b =>
      _get_serve_tf_examples_fn a b ;;; ret tt
  | Call_get_ce_eval_tf_examples_fn a b =>
      _get_ce_eval_tf_examples_fn a b ;;; ret tt
  | Call_model_fn a b => model_fn a b ;;; ret tt
  end.

(** The world after a call; a call that raises leaves nothing reachable
    behind. *)
Definition after (c : call) (w : world) : world :=
  match exec c w with
  | Ok (_, w') => w'
  | Raise _ => w
  end.

(** The world once the class statement has run: the class, no instance. *)
Definition initial : world := {| cls := BaseTrainerStep; heap := ∅ |}.

Inductive reachable : world → Prop :=
| reachable_initial : reachable initial
| reachable_after c w : reachable w → reachable (after c w).

(** The six fields the constructor assigns. *)
Definition fields : list string :=
  ["serving_model_dir"; "transform_output"; "train_files"; "eval_files";
   "schema"; "log_dir"].

(** An attribute that holds something other than [None]. *)
Definition non_null (w : world) (self : loc) (a : string) : Prop :=
  ∃ v, field w self a = Some v ∧ v ≠ VNone.

(** [BaseStep.__init__] leaves no instance attribute named like an attribute
    of the class. *)
Definition base_keeps_class_names : Prop :=
  ∀ kwargs d a,
    BaseStep_init E kwargs = Ok d → is_Some (BaseTrainerStep !! a) →
    d !! a = None.

(** ** Auxiliary definitions for the proofs *)

(** The world with the attributes of [self] replaced by [d]. *)
Definition put (w : world) (self : loc) (d : gmap string value) : world :=
  set_heap w (<[self := d]> (heap w)).

(** The instance dictionary once the six assignments of [__init__] have run
    on [d]. *)
Definition assigned (smd tout : option string) (tf ef : value)
    (d : gmap string value) : gmap string value :=
  <["log_dir" := VNone]> (<["schema" := VNone]> (<["eval_files" := ef]>
  (<["train_files" := tf]> (<["transform_output" := of_text tout]>
  (<["serving_model_dir" := of_text smd]> d))))).

(** The schema branch of [__init__] on the instance dictionary. *)
Definition with_schema (tout : option string) (d : gmap string value)
  : result (gmap string value) :=
  match tout with
  | None => Ok d
  | Some t =>
      match TFTransformOutput_transformed_feature_spec E (VStr t) with
      | Ok spec => Ok (<["schema" := VDict (dict_copy spec)]> d)
      | Raise e => Raise e
      end
  end.

(** The log_dir branch of [__init__] on the instance dictionary. *)
Definition with_log_dir (smd : option string) (d : gmap string value)
  : gmap string value :=
  match smd with
  | None => d
  | Some s =>
      <["log_dir" := VStr (posixpath.join (posixpath.dirname s) ["logs"])]> d
  end.

(** The class is as its body left it, and no instance shadows one of its
    attributes. *)
Definition wf (w : world) : Prop :=
  cls w = BaseTrainerStep ∧
  ∀ l d a,
    heap w !! l = Some d → is_Some (BaseTrainerStep !! a) → d !! a = None.

End Class.
End Model.


(** ** A concrete environment *)

Module demo.

(** Feature specs as tf.io has them, as far as their kind and length. *)
Inductive feature : Type :=
| FixedLenFeature (shape : list nat)
| VarLenFeature.

(** Opaque objects, told apart by a number. *)
Definition pyobj : Type := nat.

Definition spec : gmap string feature :=
  <["age" := FixedLenFeature []]> (<["tags" := VarLenFeature]> ∅).

(** [BaseStep.__init__] here keeps one private flag; the provider knows one
    transform output and raises on any other path. *)
Definition E : @env feature pyobj := {|
  StepTypes_trainer_name := "trainer";
  BaseStep_init := λ _, Ok (<["_immutable" := VNone]> ∅);
  TFTransformOutput_transformed_feature_spec := λ p,
    match p with
    | VStr "/a/b/transform" => Ok spec
    | _ => Raise (Exception "transform output not found")
    end
|}.

(** A second environment, in which everything outside the class differs. *)
Definition E' : @env feature pyobj := {|
  StepTypes_trainer_name := "trainer";
  BaseStep_init := λ kwargs, Ok kwargs;
  TFTransformOutput_transformed_feature_spec := λ _, Ok ∅
|}.

Definition step_call : @call feature pyobj :=
  Call_new (Some "/a/b/model") (Some "/a/b/transform")
           (VStr "train/*") (VStr "eval/*") ∅.

(** The world with one trainer step in it. *)
Definition w1 : @world feature pyobj := after E step_call (initial E).

(** A second construction, in the other environment, from other arguments
    but the same [serving_model_dir]. *)
Definition step_call' : @call feature pyobj :=
  Call_new (Some "/a/b/model") None VNone (VObj 3)
           (<["name" := VStr "trainer"]> ∅).

Definition w2 : @world feature pyobj := after E' step_call' w1.

(** An environment in which [BaseStep.__init__] raises. *)
Definition E_failing : @env feature pyobj := {|
  StepTypes_trainer_name := "trainer";
  BaseStep_init := λ _, Raise (Exception "BaseStep failed");
  TFTransformOutput_transformed_feature_spec := λ _, Ok ∅
|}.

(** The world with two trainer steps in it, both built in [E]. *)
Definition w3 : @world feature pyobj := after E step_call' w1.

(** Steps whose [serving_model_dir] has no directory part, or the root for
    its directory. *)
Definition bare_call : @call feature pyobj :=
  Call_new (Some "model") None VNone VNone ∅.

Definition root_call : @call feature pyobj :=
  Call_new (Some "/model") None VNone VNone ∅.



End demo.

(** * os.path on sample paths *)

Example dirname_abs : posixpath.dirname "/a/b/model" = "/a/b".
Proof. reflexivity. Qed.

Example dirname_trailing : posixpath.dirname "/a/b/model/" = "/a/b/model".
Proof. reflexivity. Qed.

Example dirname_root : posixpath.dirname "/model" = "/".
Proof. reflexivity. Qed.

Example dirname_rel : posixpath.dirname "model" = "".
Proof. reflexivity. Qed.

Example dirname_slashes : posixpath.dirname "//a//b" = "//a".
Proof. reflexivity. Qed.

Example join_plain : posixpath.join "/a/b" ["logs"] = "/a/b/logs".
Proof. reflexivity. Qed.

Example join_empty : posixpath.join "" ["logs"] = "logs".
Proof. reflexivity. Qed.

Example join_root : posixpath.join "/" ["logs"] = "/logs".
Proof. reflexivity. Qed.

(** ** The directory of a child path *)

Section Paths.
Import posixpath.

Lemma rfind_from_absent c p i last :
  contains c p = false → rfind_from c p i last = last.
Proof.
  revert i last. induction p as [|a p IH]; intros i last Hc; [done|].
  simpl in *. apply orb_false_iff in Hc as [-> Hp]. by apply IH.
Qed.

Lemma rfind_from_last c d b i last :
  contains c b = false →
  rfind_from c (d ++ String c b) i last = (i + Z.of_nat (String.length d))%Z.
Proof.
  intros Hb. revert i last. induction d as [|a d IH]; intros i last; simpl.
  - rewrite Ascii.eqb_refl, rfind_from_absent by done. lia.
  - rewrite IH. lia.
Qed.

Lemma slice_to_prefix d c b :
  slice_to (d ++ String c b) (Z.of_nat (String.length d) + 1)
  = d ++ String c "".
Proof.
  unfold slice_to.
  replace (Z.to_nat (Z.of_nat (String.length d) + 1))
    with (S (String.length d)) by lia.
  induction d as [|a d IH]; simpl.
  - by destruct b.
  - by rewrite IH.
Qed.

Lemma endswith_app_sep c d : endswith c (d ++ String c "") = true.
Proof.
  induction d as [|a d IH]; simpl; [apply Ascii.eqb_refl|].
  destruct (d ++ String c "") eqn:Hd; [by destruct d|done].
Qed.




End Paths.

(** * Properties *)

Section Properties.

Context {feature pyobj : Type} (E : @env feature pyobj).

Implicit Types (w : @world feature pyobj) (c : @call feature pyobj)
  (self l : loc) (a : string).

Notation "x <- m ;; k" := (bind m (λ x, k))
  (at level 100, m at next level, k at level 200, right associativity,
   only parsing).
Notation "m ;;; k" := (bind m (λ _, k))
  (at level 100, k at level 200, right associativity, only parsing).

Lemma put_put w self d d' : put (put w self d) self d' = put w self d'.
Proof. unfold put, set_heap. simpl. f_equal. apply insert_insert_eq. Qed.

Lemma setattr_put self a v w d :
  setattr self a v (put w self d) = Ok (tt, put w self (<[a := v]> d)).
Proof.
  unfold setattr, put, set_heap. simpl.
  do 3 f_equal. apply alter_insert_eq.
Qed.

Lemma getattr_put self a v w d :
  d !! a = Some v → getattr self a (put w self d) = Ok (v, put w self d).
Proof.
  intros Hd. unfold getattr, put, set_heap. simpl.
  by rewrite lookup_insert_eq, Hd.
Qed.

Lemma super_init_put self kw w d :
  super_init E self kw (put w self d) =
  match BaseStep_init E kw with
  | Ok b => Ok (tt, put w self (b ∪ d))
  | Raise e => Raise e
  end.
Proof.
  unfold super_init, bind, lift. destruct (BaseStep_init E kw); [|done].
  unfold put, set_heap. simpl.
  do 3 f_equal. apply alter_insert_eq.
Qed.

Lemma init_put self smd tout tf ef kw w d :
  __init__ E self smd tout tf ef kw (put w self d) =
  match BaseStep_init E kw with
  | Raise e => Raise e
  | Ok b =>
      match with_schema E tout (assigned smd tout tf ef (b ∪ d)) with
      | Raise e => Raise e
      | Ok d' => Ok (tt, put w self (with_log_dir smd d'))
      end
  end.
Proof.
  unfold __init__.
  unfold bind at 1. rewrite super_init_put.
  destruct (BaseStep_init E kw) as [b|e]; [|done].
  do 6 (unfold bind at 1; rewrite setattr_put).
  fold (assigned smd tout tf ef (b ∪ d)).
  set (d1 := assigned smd tout tf ef (b ∪ d)).
  assert (Ht : d1 !! "transform_output" = Some (of_text tout)).
  { unfold d1, assigned. by simplify_map_eq. }
  assert (Hs : ∀ d2, d2 !! "serving_model_dir" = Some (of_text smd) →
    (s <- getattr self "serving_model_dir" ;;
     if is_not_None s then
       s' <- getattr self "serving_model_dir" ;;
       d <- lift (os_path_dirname s') ;;
       p <- lift (os_path_join d "logs") ;;
       setattr self "log_dir" p
     else ret tt) (put w self d2) = Ok (tt, put w self (with_log_dir smd d2))).
  { intros d2 Hd2. unfold bind at 1. rewrite (getattr_put _ _ _ _ _ Hd2).
    destruct smd as [s|]; simpl; [|done].
    unfold bind at 1. rewrite (getattr_put _ _ _ _ _ Hd2).
    unfold bind, lift. simpl. by rewrite setattr_put. }
  unfold bind at 1. rewrite (getattr_put _ _ _ _ _ Ht).
  destruct tout as [t|]; simpl.
  - unfold bind at 1. unfold bind at 1. rewrite (getattr_put _ _ _ _ _ Ht).
    unfold bind at 1. unfold lift at 1. simpl.
    destruct (TFTransformOutput_transformed_feature_spec E (VStr t)) as [spec|e];
      [|done].
    rewrite setattr_put. apply Hs. unfold d1, assigned. by simplify_map_eq.
  - unfold bind at 1. unfold ret at 1. apply Hs.
    unfold d1, assigned. by simplify_map_eq.
Qed.

Lemma new_eq s t tf ef kw w :
  new E s t tf ef kw w =
  match BaseStep_init E kw with
  | Raise e => Raise e
  | Ok b =>
      match with_schema E t (assigned s t tf ef (b ∪ ∅)) with
      | Raise e => Raise e
      | Ok d' =>
          Ok (fresh (dom (heap w)),
              put w (fresh (dom (heap w))) (with_log_dir s d'))
      end
  end.
Proof.
  unfold new. fold (put w (fresh (dom (heap w))) ∅).
  unfold bind at 1. rewrite init_put.
  destruct (BaseStep_init E kw) as [b|e]; [|done].
  by destruct (with_schema E t (assigned s t tf ef (b ∪ ∅))).
Qed.

Lemma field_put_eq w self d a : field (put w self d) self a = d !! a.
Proof. unfold field, put. simpl. by rewrite lookup_insert_eq. Qed.

Lemma field_put_ne w self l d a :
  self ≠ l → field (put w self d) l a = field w l a.
Proof. intros Hne. unfold field, put. simpl. by rewrite lookup_insert_ne. Qed.

Lemma dict_copy_eq (d : gmap string feature) : dict_copy d = d.
Proof. apply list_to_map_to_list. Qed.

Lemma getattr_field w self a v :
  field w self a = Some v → getattr self a w = Ok (v, w).
Proof.
  unfold field, getattr. destruct (heap w !! self) as [d|]; simpl; [|done].
  by intros ->.
Qed.

(** What a successful construction leaves behind. *)
Lemma new_inv s t tf ef kw w self w' :
  new E s t tf ef kw w = Ok (self, w') →
  ∃ b d,
    BaseStep_init E kw = Ok b ∧
    with_schema E t (assigned s t tf ef (b ∪ ∅)) = Ok d ∧
    self = fresh (dom (heap w)) ∧
    w' = put w self (with_log_dir s d).
Proof.
  rewrite new_eq. destruct (BaseStep_init E kw) as [b|e]; [|done].
  destruct (with_schema E t (assigned s t tf ef (b ∪ ∅))) as [d|e] eqn:Hd;
    [|done].
  intros [= <- <-]. by exists b, d.
Qed.

Lemma with_schema_inv t d d' :
  with_schema E t d = Ok d' →
  match t with
  | None => d' = d
  | Some p =>
      ∃ spec, TFTransformOutput_transformed_feature_spec E (VStr p) = Ok spec
              ∧ d' = <["schema" := VDict spec]> d
  end.
Proof.
  unfold with_schema. destruct t as [p|]; [|by intros [= <-]].
  destruct (TFTransformOutput_transformed_feature_spec E (VStr p)) as [spec|e];
    [|done].
  intros [= <-]. exists spec. by rewrite dict_copy_eq.
Qed.

(** The instance dictionary of a freshly constructed step, field by field. *)
Lemma new_fields s t tf ef kw w self w' :
  new E s t tf ef kw w = Ok (self, w') →
  field w' self "serving_model_dir" = Some (of_text s) ∧
  field w' self "transform_output" = Some (of_text t) ∧
  field w' self "train_files" = Some tf ∧
  field w' self "eval_files" = Some ef ∧
  field w' self "schema" =
    match t with
    | None => Some VNone
    | Some p =>
        match TFTransformOutput_transformed_feature_spec E (VStr p) with
        | Ok spec => Some (VDict spec)
        | Raise _ => None
        end
    end ∧
  field w' self "log_dir" =
    match s with
    | None => Some VNone
    | Some p => Some (VStr (posixpath.join (posixpath.dirname p) ["logs"]))
    end.
Proof.
  intros (b & d & Hb & Hd & -> & ->)%new_inv.
  rewrite !field_put_eq. apply with_schema_inv in Hd.
  destruct t as [p|].
  - destruct Hd as (spec & -> & ->).
    unfold with_log_dir, assigned. destruct s; by simplify_map_eq.
  - subst d. unfold with_log_dir, assigned. destruct s; by simplify_map_eq.
Qed.

(** Construction fails only where [BaseStep.__init__] or the transform-output
    provider does. *)
Lemma new_succeeds s t tf ef kw w :
  is_ok (BaseStep_init E kw) = true →
  (∀ p, t = Some p →
     is_ok (TFTransformOutput_transformed_feature_spec E (VStr p)) = true) →
  is_ok (new E s t tf ef kw w) = true.
Proof.
  intros Hb Ht. rewrite new_eq.
  destruct (BaseStep_init E kw) as [b|e]; [|done].
  unfold with_schema. destruct t as [p|]; [|done].
  specialize (Ht p eq_refl).
  by destruct (TFTransformOutput_transformed_feature_spec E (VStr p)).
Qed.

(** C1: after every construction, [schema] holds something other than [None]
    exactly when [transform_output] was supplied, and [log_dir] holds
    something other than [None] exactly when [serving_model_dir] was supplied;
    otherwise the field holds [None]. *)
Theorem schema_and_log_dir_set_iff_supplied s t tf ef kw w self w' :
  new E s t tf ef kw w = Ok (self, w') →
  (non_null w' self "schema" ↔ t ≠ None) ∧
  (field w' self "schema" = Some VNone ↔ t = None) ∧
  (non_null w' self "log_dir" ↔ s ≠ None) ∧
  (field w' self "log_dir" = Some VNone ↔ s = None).
Proof.
  intros Hnew. pose proof Hnew as (b & d & _ & Hd & _ & _)%new_inv.
  apply new_fields in Hnew as (_ & _ & _ & _ & Hsch & Hlog).
  unfold non_null. rewrite Hsch, Hlog. clear Hsch Hlog.
  apply with_schema_inv in Hd.
  repeat split.
  - intros (v & Hv & Hne) ->. by injection Hv as <-.
  - intros Ht. destruct t as [p|]; [|done].
    destruct Hd as (spec & -> & _). by exists (VDict spec).
  - destruct t as [p|]; [|done]. destruct Hd as (spec & -> & _). done.
  - by intros ->.
  - intros (v & Hv & Hne) ->. by injection Hv as <-.
  - intros Hs. destruct s as [p|]; [|done]. by eexists.
  - by destruct s.
  - by intros ->.
Qed.

(** C2: when [transform_output] is supplied, [schema] equals the feature
    spec the transform-output provider yields for that path. *)
Theorem schema_is_transformed_feature_spec s p tf ef kw w self w' :
  new E s (Some p) tf ef kw w = Ok (self, w') →
  ∃ spec,
    TFTransformOutput_transformed_feature_spec E (VStr p) = Ok spec ∧
    field w' self "schema" = Some (VDict spec).
Proof.
  intros Hnew. pose proof Hnew as (b & d & _ & Hd & _ & _)%new_inv.
  apply new_fields in Hnew as (_ & _ & _ & _ & Hsch & _).
  apply with_schema_inv in Hd as (spec & Hspec & _).
  exists spec. by rewrite Hsch, Hspec.
Qed.

(** C9: the four plain fields hold the constructor arguments unchanged. *)
Theorem arguments_stored_verbatim s t tf ef kw w self w' :
  new E s t tf ef kw w = Ok (self, w') →
  field w' self "serving_model_dir" = Some (of_text s) ∧
  field w' self "transform_output" = Some (of_text t) ∧
  field w' self "train_files" = Some tf ∧
  field w' self "eval_files" = Some ef.
Proof.
  intros (Hs & Ht & Htf & Hef & _)%new_fields. done.
Qed.

(** C4: no base hook raises, whatever it is given. *)
Theorem base_hooks_never_raise
    w self (x y : @value feature pyobj) :
  is_ok (run_fn self w) = true ∧
  is_ok (input_fn self x y w) = true ∧
  is_ok (model_fn x y w) = true ∧
  is_ok (_get_serve_tf_examples_fn x y w) = true ∧
  is_ok (_get_ce_eval_tf_examples_fn x y w) = true.
Proof. repeat split. Qed.

(** C6: every base hook returns [None]. *)
Theorem base_hooks_return_None
    w self (x y : @value feature pyobj) :
  value_of (run_fn self w) = Some VNone ∧
  value_of (input_fn self x y w) = Some VNone ∧
  value_of (model_fn x y w) = Some VNone ∧
  value_of (_get_serve_tf_examples_fn x y w) = Some VNone ∧
  value_of (_get_ce_eval_tf_examples_fn x y w) = Some VNone.
Proof. repeat split. Qed.

(** *** Frame properties and the invariant of reachable worlds *)

Lemma exec_hook c w : is_hook c = true → exec E c w = Ok (tt, w).
Proof. by destruct c. Qed.

Lemma getattr_world self a w v w' : getattr self a w = Ok (v, w') → w' = w.
Proof.
  unfold getattr. intros H.
  repeat match type of H with
         | match ?x with _ => _ end = _ => destruct x
         end; congruence.
Qed.

(** A call either leaves the world as it is or is a construction that
    succeeded. *)
Lemma after_cases c w :
  after E c w = w ∨
  ∃ s t tf ef kw self,
    c = Call_new s t tf ef kw ∧ new E s t tf ef kw w = Ok (self, after E c w).
Proof.
  destruct c as [s t tf ef kw|self| | | | |];
    try (left; unfold after; by rewrite exec_hook).
  - unfold after, exec, bind, ret.
    destruct (new E s t tf ef kw w) as [[self w']|e] eqn:Hnew; [|by left].
    right. by exists s, t, tf, ef, kw, self.
  - left. unfold after, exec, bind, ret, get_run_fn.
    destruct (getattr self "run_fn" w) as [[v w']|e] eqn:Hget; [|done].
    by apply getattr_world in Hget.
Qed.

Lemma fresh_loc_unused w : heap w !! fresh (dom (heap w)) = None.
Proof. apply not_elem_of_dom, is_fresh. Qed.

Lemma after_field c w l a :
  is_Some (heap w !! l) → field (after E c w) l a = field w l a.
Proof.
  intros Hl.
  destruct (after_cases c w) as [->|(s & t & tf & ef & kw & self & _ & Hnew)];
    [done|].
  apply new_inv in Hnew as (b & d & _ & _ & -> & ->).
  apply field_put_ne. intros <-. rewrite fresh_loc_unused in Hl.
  by destruct Hl.
Qed.

Lemma class_name_not_field a : is_Some (BaseTrainerStep E !! a) → a ∉ fields.
Proof.
  intros [x Hx] Hin. unfold fields in Hin.
  repeat (apply elem_of_cons in Hin as [->|Hin]; [by vm_compute in Hx|]).
  by apply elem_of_nil in Hin.
Qed.

Lemma constructed_lookup_other s t tf ef d0 d a :
  a ∉ fields →
  with_schema E t (assigned s t tf ef d0) = Ok d →
  with_log_dir s d !! a = d0 !! a.
Proof.
  unfold fields. rewrite !not_elem_of_cons.
  intros (? & ? & ? & ? & ? & ? & _) Hd.
  apply with_schema_inv in Hd.
  assert (d !! a = d0 !! a) as <-.
  { destruct t as [p|]; [destruct Hd as (spec & _ & ->)|subst d];
      unfold assigned; by simplify_map_eq. }
  unfold with_log_dir. destruct s; by simplify_map_eq.
Qed.

Lemma reachable_wf w : base_keeps_class_names E → reachable E w → wf E w.
Proof.
  intros Hbase. induction 1 as [|c w Hw [Hcls Hinst]].
  - split; [done|]. intros l d a Hl. simpl in Hl. by rewrite lookup_empty in Hl.
  - destruct (after_cases c w)
      as [->|(s & t & tf & ef & kw & self & _ & Hnew)]; [done|].
    apply new_inv in Hnew as (b & d & Hb & Hd & -> & ->).
    split; [done|]. intros l d' a Hl Ha. unfold put in Hl. simpl in Hl.
    destruct (decide (fresh (dom (heap w)) = l)) as [<-|Hne].
    + rewrite lookup_insert_eq in Hl. injection Hl as <-.
      rewrite (constructed_lookup_other _ _ _ _ _ _ _
                 (class_name_not_field _ Ha) Hd).
      rewrite lookup_union_None. split; [by eapply Hbase|done].
    + rewrite lookup_insert_ne in Hl by done. by eapply Hinst.
Qed.

Lemma after_cls c w : cls (after E c w) = cls w.
Proof.
  destruct (after_cases c w)
    as [->|(s & t & tf & ef & kw & self & _ & Hnew)]; [done|].
  by apply new_inv in Hnew as (b & d & _ & _ & -> & ->).
Qed.

(** C5: every base hook hands back the world it was given, so no field of
    any instance changes; and no operation of the class at all changes a
    field of an instance that exists already, so [schema] and [log_dir] stay
    as the constructor derived them. *)
Theorem base_hooks_leave_fields_unchanged
    w self (x y : @value feature pyobj) :
  world_of (run_fn self w) = Some w ∧
  world_of (input_fn self x y w) = Some w ∧
  world_of (model_fn x y w) = Some w ∧
  world_of (_get_serve_tf_examples_fn x y w) = Some w ∧
  world_of (_get_ce_eval_tf_examples_fn x y w) = Some w ∧
  (∀ c l a, is_hook c = true → field (after E c w) l a = field w l a) ∧
  (∀ c l a, is_Some (heap w !! l) → field (after E c w) l a = field w l a).
Proof.
  repeat split.
  - intros c l a Hc. unfold after. by rewrite exec_hook.
  - intros c l a. apply after_field.
Qed.

(** C8: on an instance of a reachable world, [get_run_fn] returns the method
    [run_fn] bound to that very instance, which is what [self.run_fn]
    evaluates to; it hands back the world unchanged, and what it returns is
    the callable, not the result of calling it. *)
Theorem get_run_fn_returns_bound_run_fn w self :
  base_keeps_class_names E → reachable E w → is_Some (heap w !! self) →
  get_run_fn self w = Ok (VMethod "run_fn" self, w) ∧
  get_run_fn self w = getattr self "run_fn" w ∧
  call_value (VMethod "run_fn" self) [] w = run_fn self w ∧
  value_of (get_run_fn self w) ≠ value_of (run_fn self w).
Proof.
  intros Hbase Hw [d Hd].
  destruct (reachable_wf w Hbase Hw) as [Hcls Hinst].
  assert (Hget : get_run_fn self w = Ok (VMethod "run_fn" self, w)).
  { unfold get_run_fn, getattr. rewrite Hd.
    rewrite (Hinst self d "run_fn" Hd) by (by vm_compute; eexists).
    by rewrite Hcls. }
  repeat split; [done|]. by rewrite Hget.
Qed.

(** C10: in every reachable world the class attribute [STEP_TYPE] is
    [StepTypes.trainer.name], every instance reads that value as its
    [STEP_TYPE], and no operation changes the class. *)
Theorem STEP_TYPE_is_trainer_name w :
  base_keeps_class_names E → reachable E w →
  cls w !! "STEP_TYPE" = Some (CData (VStr (StepTypes_trainer_name E))) ∧
  (∀ self, is_Some (heap w !! self) →
     getattr self "STEP_TYPE" w = Ok (VStr (StepTypes_trainer_name E), w)) ∧
  (∀ c, cls (after E c w) = cls w).
Proof.
  intros Hbase Hw.
  destruct (reachable_wf w Hbase Hw) as [Hcls Hinst].
  repeat split.
  - by rewrite Hcls.
  - intros self [d Hd]. unfold getattr. rewrite Hd.
    rewrite (Hinst self d "STEP_TYPE" Hd) by (by vm_compute; eexists).
    by rewrite Hcls.
  - intros c. apply after_cls.
Qed.

End Properties.

(** C7: [log_dir] depends on [serving_model_dir] alone: two constructions
    given the same [serving_model_dir] end with equal [log_dir], whatever the
    other arguments, the world they run in, and whatever
    [BaseStep.__init__] and the transform-output provider do. *)
Theorem log_dir_deterministic {feature pyobj : Type}
    (E1 E2 : @env feature pyobj) s t1 t2 tf1 tf2 ef1 ef2 kw1 kw2
    w1 w2 self1 self2 w1' w2' :
  new E1 s t1 tf1 ef1 kw1 w1 = Ok (self1, w1') →
  new E2 s t2 tf2 ef2 kw2 w2 = Ok (self2, w2') →
  field w1' self1 "log_dir" = field w2' self2 "log_dir".
Proof.
  intros (_ & _ & _ & _ & _ & H1)%new_fields
         (_ & _ & _ & _ & _ & H2)%new_fields.
  by rewrite H1, H2.
Qed.

(** * The properties at work on a concrete step *)

Lemma demo_base_keeps_class_names : base_keeps_class_names demo.E.
Proof.
  intros kw d a [= <-] [x Hx].
  destruct (decide (a = "_immutable")) as [->|Hne].
  - by vm_compute in Hx.
  - rewrite lookup_insert_ne by done. apply lookup_empty.
Qed.

Lemma schema_and_log_dir_set_iff_supplied_witness :
  new demo.E (Some "/a/b/model") (Some "/a/b/transform")
      (VStr "train/*") (VStr "eval/*") ∅ (initial demo.E)
    = Ok (1%positive, demo.w1) ∧
  (non_null demo.w1 1%positive "schema" ↔ Some "/a/b/transform" ≠ None) ∧
  (field demo.w1 1%positive "schema" = Some VNone
     ↔ Some "/a/b/transform" = None) ∧
  (non_null demo.w1 1%positive "log_dir" ↔ Some "/a/b/model" ≠ None) ∧
  (field demo.w1 1%positive "log_dir" = Some VNone ↔ Some "/a/b/model" = None).
Proof.
  assert (H : new demo.E (Some "/a/b/model") (Some "/a/b/transform")
                  (VStr "train/*") (VStr "eval/*") ∅ (initial demo.E)
              = Ok (1%positive, demo.w1)) by (vm_compute; reflexivity).
  split; [exact H|].
  exact (schema_and_log_dir_set_iff_supplied demo.E _ _ _ _ _ _ _ _ H).
Defined.

Lemma schema_is_transformed_feature_spec_witness :
  ∃ spec,
    TFTransformOutput_transformed_feature_spec demo.E (VStr "/a/b/transform")
      = Ok spec ∧
    field demo.w1 1%positive "schema" = Some (VDict spec).
Proof.
  apply (schema_is_transformed_feature_spec demo.E (Some "/a/b/model")
           "/a/b/transform" (VStr "train/*") (VStr "eval/*") ∅
           (initial demo.E) 1%positive demo.w1).
  vm_compute. reflexivity.
Defined.

Lemma arguments_stored_verbatim_witness :
  field demo.w1 1%positive "serving_model_dir" = Some (VStr "/a/b/model") ∧
  field demo.w1 1%positive "transform_output" = Some (VStr "/a/b/transform") ∧
  field demo.w1 1%positive "train_files" = Some (VStr "train/*") ∧
  field demo.w1 1%positive "eval_files" = Some (VStr "eval/*").
Proof.
  apply (arguments_stored_verbatim demo.E (Some "/a/b/model")
           (Some "/a/b/transform") (VStr "train/*") (VStr "eval/*") ∅
           (initial demo.E) 1%positive demo.w1).
  vm_compute. reflexivity.
Defined.

Lemma base_hooks_leave_fields_unchanged_witness :
  field (after demo.E' demo.step_call' demo.w1) 1%positive "log_dir"
    = field demo.w1 1%positive "log_dir" ∧
  field (after demo.E (Call_run_fn 1%positive) demo.w1) 1%positive "schema"
    = field demo.w1 1%positive "schema".
Proof.
  split.
  - destruct (base_hooks_leave_fields_unchanged demo.E' demo.w1 1%positive
                VNone VNone) as (_ & _ & _ & _ & _ & _ & Hany).
    apply Hany. vm_compute. by eexists.
  - destruct (base_hooks_leave_fields_unchanged demo.E demo.w1 1%positive
                VNone VNone) as (_ & _ & _ & _ & _ & Hhook & _).
    apply Hhook. reflexivity.
Defined.

Lemma get_run_fn_returns_bound_run_fn_witness :
  get_run_fn 1%positive demo.w1 = Ok (VMethod "run_fn" 1%positive, demo.w1).
Proof.
  apply (get_run_fn_returns_bound_run_fn demo.E demo.w1 1%positive).
  - exact demo_base_keeps_class_names.
  - unfold demo.w1. apply reachable_after, reachable_initial.
  - vm_compute. by eexists.
Defined.

Lemma STEP_TYPE_is_trainer_name_witness :
  cls demo.w1 !! "STEP_TYPE" = Some (CData (VStr "trainer")) ∧
  getattr 1%positive "STEP_TYPE" demo.w1 = Ok (VStr "trainer", demo.w1).
Proof.
  destruct (STEP_TYPE_is_trainer_name demo.E demo.w1) as (Hcls & Hinst & _).
  - exact demo_base_keeps_class_names.
  - unfold demo.w1. apply reachable_after, reachable_initial.
  - split; [exact Hcls|]. apply Hinst. vm_compute. by eexists.
Defined.

Lemma log_dir_deterministic_witness :
  field demo.w1 1%positive "log_dir" = field demo.w2 2%positive "log_dir".
Proof.
  apply (log_dir_deterministic demo.E demo.E' (Some "/a/b/model")
           (Some "/a/b/transform") None (VStr "train/*") VNone
           (VStr "eval/*") (VObj 3) ∅ (<["name" := VStr "trainer"]> ∅)
           (initial demo.E) demo.w1 1%positive 2%positive demo.w1 demo.w2).
  - vm_compute. reflexivity.
  - vm_compute. reflexivity.
Defined.

(** * Further properties *)

(** ** More of os.path: the shape of a directory name *)

Section MorePaths.
Import posixpath.

Lemma str_app_assoc (a b c : string) : (a ++ b) ++ c = a ++ (b ++ c).
Proof.
  induction a as [|x a IH]; [done|].
  change (String x ((a ++ b) ++ c) = String x (a ++ (b ++ c))). by f_equal.
Qed.

Lemma str_mul_snoc c n : str_mul c (S n) = str_mul c n ++ String c "".
Proof.
  induction n as [|n IH]; [done|].
  change (String c (str_mul c (S n))
          = String c (str_mul c n ++ String c "")).
  by f_equal.
Qed.

Lemma length_str_mul c n : String.length (str_mul c n) = n.
Proof. induction n as [|n IH]; simpl; [done|by rewrite IH]. Qed.

Lemma endswith_str_mul c n : endswith c (str_mul c (S n)) = true.
Proof. rewrite str_mul_snoc. apply endswith_app_sep. Qed.




Lemma dirname_bare p : contains sep p = false → dirname p = "".
Proof.
  intros Hp. unfold dirname, rfind. rewrite rfind_from_absent by done.
  by destruct p.
Qed.

Lemma dirname_slashes_child n b :
  contains sep b = false →
  dirname (str_mul sep (S n) ++ b) = str_mul sep (S n).
Proof.
  intros Hb. rewrite str_mul_snoc, str_app_assoc.
  change (String sep "" ++ b) with (String sep b).
  unfold dirname, rfind. rewrite rfind_from_last by done.
  rewrite Z.add_0_l, slice_to_prefix, <-str_mul_snoc, length_str_mul.
  by rewrite String.eqb_refl.
Qed.

Lemma join_slashes n b :
  startswith sep b = false →
  join (str_mul sep (S n)) [b] = str_mul sep (S n) ++ b.
Proof.
  intros Hb. unfold join, join_step. cbn [fold_left].
  by rewrite Hb, endswith_str_mul, orb_true_r.
Qed.


(** The last component of [join d ["logs"]] is ["logs"]. *)
Lemma join_logs_last d :
  ∃ prefix,
    join d ["logs"] = prefix ++ "logs" ∧
    (prefix = "" ∨ endswith sep prefix = true).
Proof.
  unfold join, join_step. cbn [fold_left startswith].
  change (Ascii.eqb "l" sep) with false. cbv iota.
  destruct (String.eqb d "") eqn:Hd; simpl.
  - exists d. split; [done|]. left. by apply String.eqb_eq.
  - destruct (endswith sep d) eqn:Hend.
    + exists d. by split; [|right].
    + exists (d ++ String sep ""). split.
      * by rewrite str_app_assoc.
      * right. apply endswith_app_sep.
Qed.

(** [dirname p] is an initial part of [p]. *)
Lemma rstrip_prefix c s : ∃ r, s = rstrip c s ++ r.
Proof.
  induction s as [|a s [r IH]]; [by exists ""|]. cbn [rstrip].
  destruct (rstrip c s) as [|x t] eqn:Hr.
  - destruct (Ascii.eqb a c).
    + by exists (String a s).
    + by exists s.
  - exists r. change (String a s = String a (String x t ++ r)). by f_equal.
Qed.

Lemma substring_prefix n s : ∃ r, s = substring 0 n s ++ r.
Proof.
  revert n. induction s as [|a s IH]; intros n.
  - exists "". by destruct n.
  - destruct n as [|n]; [by exists (String a s)|].
    destruct (IH n) as [r Hr]. exists r.
    change (String a s = String a (substring 0 n s ++ r)). by f_equal.
Qed.

Lemma dirname_prefix p : ∃ r, p = dirname p ++ r.
Proof.
  unfold dirname. set (head := slice_to p (rfind sep p + 1)).
  destruct (substring_prefix (Z.to_nat (rfind sep p + 1)) p) as [r Hr].
  fold (slice_to p (rfind sep p + 1)) in Hr. fold head in Hr.
  destruct (negb (String.eqb head "") &&
            negb (String.eqb head (str_mul sep (String.length head)))).
  - destruct (rstrip_prefix sep head) as [r' Hr'].
    exists (r' ++ r). rewrite <-str_app_assoc, <-Hr'. done.
  - by exists r.
Qed.

End MorePaths.

(** ** os.path against the component reading of paths *)

Section SpecPaths.
Import posixpath pathspec.































End SpecPaths.

(** ** [log_dir] and the parent directory of [serving_model_dir] *)

Section LogDir.

Context {feature pyobj : Type} (E : @env feature pyobj).

Implicit Types (w : @world feature pyobj) (self : loc).


End LogDir.



(** ** More of the constructor and of [get_run_fn] *)

Section MoreProperties.

Context {feature pyobj : Type} (E : @env feature pyobj).

Implicit Types (w : @world feature pyobj) (c : @call feature pyobj)
  (self l : loc) (a : string).

Notation "x <- m ;; k" := (bind m (λ x, k))
  (at level 100, m at next level, k at level 200, right associativity,
   only parsing).
Notation "m ;;; k" := (bind m (λ _, k))
  (at level 100, k at level 200, right associativity, only parsing).

(** X1: an exception of [BaseStep.__init__] leaves the constructor as it
    is, whatever the other arguments are. *)
Theorem new_raises_base_exception s t tf ef kw w e :
  BaseStep_init E kw = Raise e →
  new E s t tf ef kw w = Raise e.
Proof. intros Hb. by rewrite new_eq, Hb. Qed.

(** X2: once [BaseStep.__init__] has returned, an exception of the
    transform-output provider leaves the constructor as it is, also when
    [serving_model_dir] is given. *)
Theorem new_raises_provider_exception s p tf ef kw w e :
  is_ok (BaseStep_init E kw) = true →
  TFTransformOutput_transformed_feature_spec E (VStr p) = Raise e →
  new E s (Some p) tf ef kw w = Raise e.
Proof.
  intros Hb Hp. rewrite new_eq.
  destruct (BaseStep_init E kw) as [b|]; [|done].
  unfold with_schema. by rewrite Hp.
Qed.

(** X4: the constructor assigns its six fields and nothing else: any other
    attribute of the new instance is as [BaseStep.__init__] left it. *)
Theorem new_keeps_base_attributes s t tf ef kw w self w' b a :
  new E s t tf ef kw w = Ok (self, w') →
  BaseStep_init E kw = Ok b →
  a ∉ fields →
  field w' self a = b !! a.
Proof.
  intros (b' & d & Hb' & Hd & -> & ->)%new_inv Hb Ha.
  rewrite Hb in Hb'. injection Hb' as <-.
  rewrite field_put_eq, (constructed_lookup_other E _ _ _ _ _ _ _ Ha Hd).
  by rewrite (right_id_L ∅ (∪)).
Qed.

(** X5: [get_run_fn] looks [run_fn] up when it is called: an attribute
    [run_fn] assigned on the instance is what it returns. *)
Theorem get_run_fn_late_bound w self v :
  is_Some (heap w !! self) →
  (setattr self "run_fn" v ;;; get_run_fn self) w
  = Ok (v, set_heap w (alter (insert "run_fn" v) self (heap w))).
Proof.
  intros [d Hd]. unfold bind, setattr. apply getattr_field.
  unfold field. simpl. rewrite lookup_alter_eq, Hd. simpl.
  apply lookup_insert_eq.
Qed.

(** X6: calling what [get_run_fn] returns, with no argument, runs the base
    [run_fn]: it returns [None] and leaves the world as it is. *)
Theorem get_run_fn_then_call w self :
  base_keeps_class_names E → reachable E w → is_Some (heap w !! self) →
  (f <- get_run_fn self ;; call_value f []) w = Ok (VNone, w).
Proof.
  intros Hbase Hw [d Hd].
  destruct (reachable_wf E w Hbase Hw) as [Hcls Hinst].
  unfold bind, get_run_fn, getattr. rewrite Hd.
  rewrite (Hinst self d "run_fn" Hd) by (by vm_compute; eexists).
  by rewrite Hcls.
Qed.

(** X7: the hooks reached through an instance take exactly the two
    arguments of their signature: [input_fn] comes bound to the instance,
    the three static ones come as plain functions; called with two arguments
    each returns [None] and leaves the world as it is, and called with any
    other number of arguments each raises [TypeError]. *)
Theorem hooks_through_instance w self (x y : @value feature pyobj) :
  base_keeps_class_names E → reachable E w → is_Some (heap w !! self) →
  (f <- getattr self "input_fn" ;; call_value f [x; y]) w = Ok (VNone, w) ∧
  (f <- getattr self "model_fn" ;; call_value f [x; y]) w = Ok (VNone, w) ∧
  (f <- getattr self "_get_serve_tf_examples_fn" ;; call_value f [x; y]) w
    = Ok (VNone, w) ∧
  (f <- getattr self "_get_ce_eval_tf_examples_fn" ;; call_value f [x; y]) w
    = Ok (VNone, w) ∧
  getattr self "input_fn" w = Ok (VMethod "input_fn" self, w) ∧
  getattr self "model_fn" w = Ok (VFunction "model_fn", w) ∧
  getattr self "_get_serve_tf_examples_fn" w
    = Ok (VFunction "_get_serve_tf_examples_fn", w) ∧
  getattr self "_get_ce_eval_tf_examples_fn" w
    = Ok (VFunction "_get_ce_eval_tf_examples_fn", w) ∧
  (∀ args : list (@value feature pyobj),
     length args ≠ 2 →
     (f <- getattr self "input_fn" ;; call_value f args) w
       = Raise TypeError ∧
     (f <- getattr self "model_fn" ;; call_value f args) w
       = Raise TypeError ∧
     (f <- getattr self "_get_serve_tf_examples_fn" ;; call_value f args) w
       = Raise TypeError ∧
     (f <- getattr self "_get_ce_eval_tf_examples_fn" ;; call_value f args) w
       = Raise TypeError).
Proof.
  intros Hbase Hw [d Hd].
  destruct (reachable_wf E w Hbase Hw) as [Hcls Hinst].
  assert (Hget : ∀ a, is_Some (BaseTrainerStep E !! a) →
            getattr self a w =
            match BaseTrainerStep E !! a with
            | Some (CData v) => Ok (v, w)
            | Some (CFunction f) => Ok (VMethod f self, w)
            | Some (CStatic f) => Ok (VFunction f, w)
            | None => Raise (AttributeError a)
            end).
  { intros a Ha. unfold getattr. by rewrite Hd, (Hinst self d a Hd Ha), Hcls. }
  unfold bind.
  rewrite !Hget by (by vm_compute; eexists).
  do 8 (split; [reflexivity|]).
  intros args Hlen.
  by destruct args as [|a1 [|a2 [|a3 args]]].
Qed.

(** X8: a [serving_model_dir] without a separator (the empty string
    included) has no directory part, and [log_dir] is the relative
    ["logs"]. *)
Theorem log_dir_of_bare_name p t tf ef kw w self w' :
  new E (Some p) t tf ef kw w = Ok (self, w') →
  posixpath.contains posixpath.sep p = false →
  field w' self "log_dir" = Some (VStr "logs").
Proof.
  intros (_ & _ & _ & _ & _ & Hlog)%new_fields Hp.
  by rewrite Hlog, dirname_bare.
Qed.

(** X9: a [serving_model_dir] right under the root, [/b] or [//b] and so
    on, gives [log_dir] under the same root, without a separator added. *)
Theorem log_dir_under_root n b t tf ef kw w self w' :
  new E (Some (posixpath.str_mul posixpath.sep (S n) ++ b)) t tf ef kw w
    = Ok (self, w') →
  posixpath.contains posixpath.sep b = false →
  field w' self "log_dir"
    = Some (VStr (posixpath.str_mul posixpath.sep (S n) ++ "logs")).
Proof.
  intros (_ & _ & _ & _ & _ & Hlog)%new_fields Hb.
  by rewrite Hlog, dirname_slashes_child, join_slashes.
Qed.


(** X11: the last component of [log_dir] is ["logs"]: what stands before it
    is empty or ends in a separator. *)
Theorem log_dir_last_component p t tf ef kw w self w' :
  new E (Some p) t tf ef kw w = Ok (self, w') →
  ∃ prefix,
    field w' self "log_dir" = Some (VStr (prefix ++ "logs")) ∧
    (prefix = "" ∨ posixpath.endswith posixpath.sep prefix = true).
Proof.
  intros (_ & _ & _ & _ & _ & Hlog)%new_fields.
  destruct (join_logs_last (posixpath.dirname p)) as (prefix & Hj & Hp).
  exists prefix. by rewrite Hlog, Hj.
Qed.

(** X12: [log_dir] starts with an initial part of [serving_model_dir]: the
    derivation never leaves the path it was given. *)
Theorem log_dir_starts_within_serving_model_dir p t tf ef kw w self w' :
  new E (Some p) t tf ef kw w = Ok (self, w') →
  ∃ d r x,
    p = d ++ r ∧ (x = "" ∨ x = "/") ∧
    field w' self "log_dir" = Some (VStr (d ++ x ++ "logs")).
Proof.
  intros (_ & _ & _ & _ & _ & Hlog)%new_fields.
  destruct (dirname_prefix p) as [r Hr].
  exists (posixpath.dirname p), r.
  rewrite Hlog. unfold posixpath.join, posixpath.join_step.
  cbn [fold_left posixpath.startswith].
  change (Ascii.eqb "l" posixpath.sep) with false. cbv iota.
  destruct (String.eqb (posixpath.dirname p) "" ||
            posixpath.endswith posixpath.sep (posixpath.dirname p)).
  - exists "". by split; [|split; [left|]].
  - exists "/". by split; [|split; [right|]].
Qed.

Lemma schema_and_log_dir_iff_aux s t tf ef kw w self w' :
  new E s t tf ef kw w = Ok (self, w') →
  (field w' self "schema" = Some VNone ↔ t = None) ∧
  (non_null w' self "schema" ↔ t ≠ None).
Proof.
  intros Hnew. pose proof Hnew as (b & d & _ & Hd & _ & _)%new_inv.
  apply new_fields in Hnew as (_ & _ & _ & _ & Hsch & _).
  apply with_schema_inv in Hd. unfold non_null. rewrite Hsch.
  destruct t as [p|].
  - destruct Hd as (spec & -> & _). split; split; try done.
    intros _. by exists (VDict spec).
  - split; split; try done. intros (v & [= <-] & Hv). done.
Qed.

(** X13: in every reachable world every instance has its six fields, and
    [log_dir] and [schema] are as the constructor derives them from
    [serving_model_dir] and [transform_output]: the relation between the
    fields holds at all times, not only after construction. *)
Theorem reachable_instances_consistent w self :
  reachable E w → is_Some (heap w !! self) →
  ∃ s t,
    field w self "serving_model_dir" = Some (of_text s) ∧
    field w self "transform_output" = Some (of_text t) ∧
    is_Some (field w self "train_files") ∧
    is_Some (field w self "eval_files") ∧
    field w self "log_dir" =
      Some (match s with
            | None => VNone
            | Some p => VStr (posixpath.join (posixpath.dirname p) ["logs"])
            end) ∧
    (field w self "schema" = Some VNone ↔ t = None) ∧
    (non_null w self "schema" ↔ t ≠ None).
Proof.
  intros Hw. revert self. induction Hw as [|c w Hw IH]; intros self Hself.
  { simpl in Hself. rewrite lookup_empty in Hself. by destruct Hself. }
  destruct (after_cases E c w)
    as [Heq|(s & t & tf & ef & kw & l & _ & Hnew)].
  { rewrite Heq in *. by apply IH. }
  pose proof Hnew as (b & d & _ & _ & Hl & Hw')%new_inv.
  destruct (decide (l = self)) as [->|Hne].
  - clear IH Hself. exists s, t.
    pose proof (schema_and_log_dir_iff_aux s t tf ef kw w self _ Hnew)
      as (Hnull & Hnon).
    apply new_fields in Hnew as (Hs & Ht & Htf & Hef & _ & Hlog).
    rewrite Hs, Ht, Htf, Hef, Hlog.
    split; [done|]. split; [done|]. split; [by eexists|].
    split; [by eexists|]. split; [by destruct s|]. by split.
  - assert (Hold : is_Some (heap w !! self)).
    { rewrite Hw' in Hself. unfold put in Hself. simpl in Hself.
      by rewrite lookup_insert_ne in Hself. }
    destruct (IH self Hold) as (s0 & t0 & IH').
    exists s0, t0. unfold non_null in *.
    by rewrite !(after_field E c w self _ Hold).
Qed.

End MoreProperties.

(** X3: without [transform_output] the provider is not consulted: the
    constructor does the same in two environments that differ in it. *)
Theorem new_without_transform_output {feature pyobj : Type}
    (E1 E2 : @env feature pyobj) s tf ef kw w :
  BaseStep_init E1 kw = BaseStep_init E2 kw →
  new E1 s None tf ef kw w = new E2 s None tf ef kw w.
Proof. intros Hb. by rewrite !new_eq, Hb. Qed.

(** ** The further properties at work on concrete steps *)

Lemma new_raises_base_exception_witness :
  new demo.E_failing (Some "/a/b/model") None VNone VNone ∅
      (initial demo.E_failing)
  = Raise (Exception "BaseStep failed").
Proof. apply (new_raises_base_exception demo.E_failing). reflexivity. Defined.

Lemma new_raises_provider_exception_witness :
  new demo.E (Some "/a/b/model") (Some "/nowhere") VNone VNone ∅
      (initial demo.E)
  = Raise (Exception "transform output not found").
Proof.
  apply (new_raises_provider_exception demo.E); reflexivity.
Defined.

Lemma new_without_transform_output_witness :
  new demo.E (Some "/a/b/model") None VNone VNone
      (<["_immutable" := VNone]> ∅) demo.w1
  = new demo.E' (Some "/a/b/model") None VNone VNone
      (<["_immutable" := VNone]> ∅) demo.w1.
Proof. apply (new_without_transform_output demo.E demo.E'). reflexivity. Defined.

Lemma new_keeps_base_attributes_witness :
  field demo.w1 1%positive "_immutable" = Some VNone.
Proof.
  rewrite (new_keeps_base_attributes demo.E (Some "/a/b/model")
             (Some "/a/b/transform") (VStr "train/*") (VStr "eval/*") ∅
             (initial demo.E) 1%positive demo.w1
             (<["_immutable" := VNone]> ∅) "_immutable").
  - reflexivity.
  - vm_compute. reflexivity.
  - reflexivity.
  - unfold fields. rewrite !not_elem_of_cons. repeat split; try done.
    apply not_elem_of_nil.
Defined.

Lemma get_run_fn_late_bound_witness :
  value_of (bind (setattr 1%positive "run_fn" (VStr "patched"))
                 (λ _, get_run_fn 1%positive) demo.w1)
  = Some (VStr "patched").
Proof.
  rewrite (get_run_fn_late_bound demo.w1 1%positive (VStr "patched")).
  - reflexivity.
  - vm_compute. by eexists.
Defined.

Lemma get_run_fn_then_call_witness :
  bind (get_run_fn 1%positive) (λ f, call_value f []) demo.w1
  = Ok (VNone, demo.w1).
Proof.
  apply (get_run_fn_then_call demo.E demo.w1 1%positive).
  - exact demo_base_keeps_class_names.
  - unfold demo.w1. apply reachable_after, reachable_initial.
  - vm_compute. by eexists.
Defined.

Lemma hooks_through_instance_witness :
  bind (getattr 1%positive "input_fn")
       (λ f, call_value f [VStr "train/*"; VObj 7]) demo.w1
    = Ok (VNone, demo.w1) ∧
  bind (getattr 1%positive "model_fn")
       (λ f, call_value f [VObj 1; VObj 2]) demo.w1
    = Ok (VNone, demo.w1) ∧
  getattr 1%positive "_get_serve_tf_examples_fn" demo.w1
    = Ok (VFunction "_get_serve_tf_examples_fn", demo.w1) ∧
  bind (getattr 1%positive "input_fn")
       (λ f, call_value f [VStr "train/*"]) demo.w1
    = Raise TypeError ∧
  bind (getattr 1%positive "model_fn")
       (λ f, call_value f [VObj 1; VObj 2; VObj 3]) demo.w1
    = Raise TypeError.
Proof.
  assert (Hw : reachable demo.E demo.w1).
  { unfold demo.w1. apply reachable_after, reachable_initial. }
  assert (Hself : is_Some (heap demo.w1 !! 1%positive)).
  { vm_compute. by eexists. }
  destruct (hooks_through_instance demo.E demo.w1 1%positive
              (VStr "train/*") (VObj 7) demo_base_keeps_class_names Hw Hself)
    as (Hin & _ & _ & _ & _ & _ & Hserve & _ & Harity).
  destruct (hooks_through_instance demo.E demo.w1 1%positive
              (VObj 1) (VObj 2) demo_base_keeps_class_names Hw Hself)
    as (_ & Hmodel & _).
  split; [exact Hin|]. split; [exact Hmodel|]. split; [exact Hserve|].
  split.
  - apply (Harity [VStr "train/*"]). simpl. lia.
  - apply (Harity [VObj 1; VObj 2; VObj 3]). simpl. lia.
Defined.

Lemma log_dir_of_bare_name_witness :
  field (after demo.E demo.bare_call (initial demo.E)) 1%positive "log_dir"
  = Some (VStr "logs").
Proof.
  apply (log_dir_of_bare_name demo.E "model" None VNone VNone ∅
           (initial demo.E) 1%positive).
  - vm_compute. reflexivity.
  - reflexivity.
Defined.

Lemma log_dir_under_root_witness :
  field (after demo.E demo.root_call (initial demo.E)) 1%positive "log_dir"
  = Some (VStr "/logs").
Proof.
  apply (log_dir_under_root demo.E 0 "model" None VNone VNone ∅
           (initial demo.E) 1%positive).
  - vm_compute. reflexivity.
  - reflexivity.
Defined.


Lemma log_dir_last_component_witness :
  ∃ prefix,
    field demo.w1 1%positive "log_dir" = Some (VStr (prefix ++ "logs")) ∧
    (prefix = "" ∨ posixpath.endswith posixpath.sep prefix = true).
Proof.
  apply (log_dir_last_component demo.E "/a/b/model"
           (Some "/a/b/transform") (VStr "train/*") (VStr "eval/*") ∅
           (initial demo.E) 1%positive demo.w1).
  vm_compute. reflexivity.
Defined.

Lemma log_dir_starts_within_serving_model_dir_witness :
  ∃ d r x,
    "/a/b/model" = d ++ r ∧ (x = "" ∨ x = "/") ∧
    field demo.w1 1%positive "log_dir" = Some (VStr (d ++ x ++ "logs")).
Proof.
  apply (log_dir_starts_within_serving_model_dir demo.E "/a/b/model"
           (Some "/a/b/transform") (VStr "train/*") (VStr "eval/*") ∅
           (initial demo.E) 1%positive demo.w1).
  vm_compute. reflexivity.
Defined.

Lemma reachable_instances_consistent_witness :
  ∃ s t,
    field demo.w3 1%positive "serving_model_dir" = Some (of_text s) ∧
    field demo.w3 1%positive "transform_output" = Some (of_text t) ∧
    is_Some (field demo.w3 1%positive "train_files") ∧
    is_Some (field demo.w3 1%positive "eval_files") ∧
    field demo.w3 1%positive "log_dir" =
      Some (match s with
            | None => VNone
            | Some p => VStr (posixpath.join (posixpath.dirname p) ["logs"])
            end) ∧
    (field demo.w3 1%positive "schema" = Some VNone ↔ t = None) ∧
    (non_null demo.w3 1%positive "schema" ↔ t ≠ None).
Proof.
  apply (reachable_instances_consistent demo.E demo.w3 1%positive).
  - unfold demo.w3, demo.w1.
    apply reachable_after, reachable_after, reachable_initial.
  - vm_compute. by eexists.
Defined.
